(** * Residual-block evaluation checks of Ceres Solver

    A shallow embedding of [internal/ceres/residual_block_utils.cc]:
    [InvalidateEvaluation], [IsEvaluationValid], [EvaluationToString],
    [UserSuppliedNumberCommentary] and the parts of
    [EvaluationErrorReportString] that can be read as C++.

    Doubles are IEEE 754 binary64 data ([spec_float]); a C++ [int] is a [Z]
    whose products wrap around at 32 bits; the caller's buffers live
    in one flat memory of doubles addressed by [Z], a [double*] is an optional
    address ([None] is [NULL]) and a [double**] is an optional table of such
    pointers.  Buffers carry no length of their own: as in the source, every
    length comes from the residual block. *)

From Stdlib Require Import ZArith List Bool String Ascii Lia.
From Stdlib Require Import Floats.SpecFloat Numbers.DecimalString.
Import ListNotations.
Local Open Scope Z_scope.

(** ** Numbers *)

Definition double : Type := spec_float.

(** Modelled from the spec: [IsFinite] comes from a header that is not part
    of the sources; "finite (neither infinite nor not-a-number)". *)
Definition IsFinite (x : double) : bool :=
  match x with
  | S754_zero _ | S754_finite _ _ _ => true
  | S754_infinity _ | S754_nan => false
  end.

(** The C++ comparison [x == y] on doubles. *)
Definition double_eq (x y : double) : bool := SFeqb x y.

Definition INT_MIN : Z := -2147483648.
Definition INT_MAX : Z := 2147483647.

(** Two's complement wrap-around of a 32-bit [int]. *)
Definition wrap_int (z : Z) : Z := (z - INT_MIN) mod 4294967296 + INT_MIN.
Definition int_mul (a b : Z) : Z := wrap_int (a * b).

(** The indices visited by [for (int i = 0; i < n; ++i)]. *)
Definition upto (n : Z) : list Z := map Z.of_nat (seq 0 (Z.to_nat n)).

(** ** Memory and pointers *)

Definition addr : Type := Z.
Definition ptr : Type := option addr.
Definition NULL : ptr := None.
Definition memory : Type := addr -> double.
Definition ptr_array : Type := Z -> ptr.

Definition store (m : memory) (a : addr) (v : double) : memory :=
  fun a' => if a' =? a then v else m a'.

(** [a] is one of the [len] cells that start at [p]; no cell when [p] is
    [NULL]. *)
Definition in_buffer (p : ptr) (len : Z) (a : addr) : Prop :=
  exists q, p = Some q /\ q <= a < q + len.

Definition in_bufferb (p : ptr) (len : Z) (a : addr) : bool :=
  match p with
  | Some q => (q <=? a) && (a <? q + len)
  | None => false
  end.

(** ** The residual block *)

(** Modelled from the spec: [ParameterBlock] is declared in
    [ceres/parameter_block.h], which is not part of the sources; only its
    [Size()] accessor is used. *)
Record ParameterBlock : Type := { Size : Z }.

(** Modelled from the spec: [ResidualBlock] is declared in
    [ceres/residual_block.h], which is not part of the sources: a residual
    count and "an ordered sequence of parameter-block descriptors", whose
    length is the number of parameter blocks. *)
Record ResidualBlock : Type := {
  NumResiduals : Z;
  parameter_blocks : list ParameterBlock
}.

Definition NumParameterBlocks (block : ResidualBlock) : Z :=
  Z.of_nat (List.length (parameter_blocks block)).

(** [block.parameter_blocks()[i]->Size()] *)
Definition parameter_block_size (block : ResidualBlock) (i : Z) : Z :=
  Size (nth (Z.to_nat i) (parameter_blocks block) {| Size := 0 |}).

(** Shape metadata the solver may hand over: counts that are not negative and
    fit an [int], with every Jacobian block length fitting an [int] as well. *)
Definition well_formed (block : ResidualBlock) : bool :=
  (0 <=? NumResiduals block) && (NumResiduals block <=? INT_MAX)
  && (NumParameterBlocks block <=? INT_MAX)
  && forallb (fun p => (0 <=? Size p)
                       && (NumResiduals block * Size p <=? INT_MAX))
             (parameter_blocks block).

(** ** Text *)

Definition nl : string := String (ascii_of_nat 10) EmptyString.

(** The conversion [%d] of [StringAppendF]. *)
Definition format_d (z : Z) : string := NilZero.string_of_int (Z.to_int z).

(** [StringAppendF(&result, ...)]: the formatted text goes to the end of
    [result]. *)
Definition StringAppendF (result text : string) : string := (result ++ text)%string.

(** The texts [f i] for [i] in [l], one after the other. *)
Definition concat_map (f : Z -> string) (l : list Z) : string :=
  fold_right (fun i rest => (f i ++ rest)%string) EmptyString l.

(** The note that [EvaluationToString] prints under its first line
    (lines 82-87). *)
Definition dump_legend : string :=
  ("For each parameter block, the value of the parameters are printed in the first column   " ++ nl ++
   "and the value of the jacobian under the corresponding residual. If a ParameterBlock was " ++ nl ++
   "held constant then the corresponding jacobian is printed as 'Not Computed'. If an entry " ++ nl ++
   "of the Jacobian/residual array was requested but was not written to by user code, it is " ++ nl ++
   "indicated by 'Uninitialized'. This is an error. Residuals or Jacobian values evaluating " ++ nl ++
   "to Inf or NaN is also an error.  " ++ nl ++ nl)%string.

(** ** Concrete evaluations *)

Definition d1_0 : double := S754_finite false 4503599627370496 (-52).
Definition d2_0 : double := S754_finite false 4503599627370496 (-51).
Definition d2_5 : double := S754_finite false 5629499534213120 (-51).
Definition d0_1 : double := S754_finite false 7205759403792794 (-56).
Definition d0_2 : double := S754_finite false 7205759403792794 (-55).
Definition d0_3 : double := S754_finite false 5404319552844595 (-54).
Definition d0_4 : double := S754_finite false 7205759403792794 (-54).
Definition d0_5 : double := S754_finite false 4503599627370496 (-53).
Definition d0_6 : double := S754_finite false 5404319552844595 (-53).
Definition d_nan : double := S754_nan.
Definition d_pinf : double := S754_infinity false.
Definition d_ninf : double := S754_infinity true.

(** 1e302, the value upstream Ceres gives [kImpossibleValue]. *)
Definition d1e302 : double := S754_finite false 5253807105661922 951.

(** A memory holding [cells] from address 0 on. *)
Definition memory_of (cells : list double) : memory :=
  fun a => nth (Z.to_nat a) cells (S754_zero false).

(** One parameter block of size 3 and two residuals. *)
Definition block_1x3_2 : ResidualBlock :=
  {| NumResiduals := 2; parameter_blocks := [ {| Size := 3 |} ] |}.

(** One parameter block of size 1 and two residuals. *)
Definition block_1x1_2 : ResidualBlock :=
  {| NumResiduals := 2; parameter_blocks := [ {| Size := 1 |} ] |}.

(** The layout used with [block_1x3_2]: the cost at 0, the residuals at 1-2,
    the parameters at 3-5 and the Jacobian block at 6-11. *)
Definition cost_at : ptr := Some 0.
Definition residuals_at : ptr := Some 1.
Definition parameters_at : ptr_array := fun _ => Some 3.
Definition jacobians_at : option ptr_array := Some (fun _ => Some 6).
Definition jacobians_held_constant : option ptr_array := Some (fun _ => NULL).

Definition memory_of_evaluation (residuals jacobian : list double) : memory :=
  memory_of ([d2_5] ++ residuals ++ [d1_0; d2_0; d0_5] ++ jacobian).

(** Scenario A: everything written and finite. *)
Definition memory_A : memory :=
  memory_of_evaluation [d1_0; d2_0] [d0_1; d0_2; d0_3; d0_4; d0_5; d0_6].

(** Scenario B: the second residual still holds the sentinel. *)
Definition memory_B : memory :=
  memory_of_evaluation [d1_0; d1e302] [d0_1; d0_2; d0_3; d0_4; d0_5; d0_6].

(** Scenario C: the second residual is not a number. *)
Definition memory_C : memory :=
  memory_of_evaluation [d1_0; d_nan] [d0_1; d0_2; d0_3; d0_4; d0_5; d0_6].

(** The layout used with [block_1x1_2]: the cost at 0, the residuals at 1-2,
    the parameter at 3 and the Jacobian block at 4-5, whose first entry is not
    a number. *)
Definition memory_J : memory :=
  memory_of [d2_5; d1_0; d2_0; d0_5; d_nan; d1_0].
Definition jacobians_J : ptr_array := fun _ => Some 4.

(** Scenario A's buffers with another cost and other parameter values. *)
Definition memory_A' : memory :=
  memory_of ([d0_1] ++ [d1_0; d2_0] ++ [d0_6; d0_6; d0_6]
             ++ [d0_1; d0_2; d0_3; d0_4; d0_5; d0_6]).

(** Scenario A's buffers with another cost value only. *)
Definition memory_A_cost : memory :=
  memory_of ([d0_1] ++ [d1_0; d2_0] ++ [d1_0; d2_0; d0_5]
             ++ [d0_1; d0_2; d0_3; d0_4; d0_5; d0_6]).

(** A block without residuals. *)
Definition block_1x3_0 : ResidualBlock :=
  {| NumResiduals := 0; parameter_blocks := [ {| Size := 3 |} ] |}.

(** Two shapes whose sizes have the same digits in a row. *)
Definition block_1_23 : ResidualBlock :=
  {| NumResiduals := 2; parameter_blocks := [ {| Size := 1 |}; {| Size := 23 |} ] |}.
Definition block_12_3 : ResidualBlock :=
  {| NumResiduals := 2; parameter_blocks := [ {| Size := 12 |}; {| Size := 3 |} ] |}.

(** Step (2) of [EvaluationErrorReportString] (lines 163-173): the sizes of
    the block, appended to [result]. *)
Definition report_shape (block : ResidualBlock) (result : string) : string :=
  let num_parameter_blocks := NumParameterBlocks block in
  let num_residuals := NumResiduals block in
  let result :=
    StringAppendF result
      ("  " ++ format_d num_parameter_blocks ++ " parameter blocks; sizes: (") in
  let result :=
    fold_left
      (fun result i => StringAppendF result (format_d (parameter_block_size block i)))
      (upto num_parameter_blocks) result in
  let result := (result ++ ")" ++ nl)%string in
  let result :=
    StringAppendF result ("  " ++ format_d num_residuals ++ " residuals" ++ nl) in
  (result ++ nl)%string.

Section Sentinel.

(** The sentinel is declared in [ceres/array_utils.h], which is not part of
    the sources; everything below holds whatever double it is. *)
Variable kImpossibleValue : double.

(** Modelled from the spec: [IsUserSuppliedValueValid] is not part of the
    sources; an element is valid when it is "finite (neither infinite nor
    not-a-number) AND" does not equal "the sentinel value". *)
Definition IsUserSuppliedValueValid (x : double) : bool :=
  IsFinite x && negb (double_eq x kImpossibleValue).

(** Modelled from the spec: [IsArrayValid] of [ceres/array_utils.cc] is not
    part of the sources.  "A null buffer pointer with length > 0 is invalid
    (absent-but-required).  A null buffer with length == 0 is vacuously valid.
    Otherwise, valid iff every element is finite (neither infinite nor
    not-a-number) AND no element equals the sentinel value."  The scan stops
    at the first violation. *)
Definition IsArrayValid (size : Z) (x : ptr) (m : memory) : bool :=
  match x with
  | None => negb (0 <? size)
  | Some p => forallb (fun i => IsUserSuppliedValueValid (m (p + i))) (upto size)
  end.

(** Modelled from the spec: [InvalidateArray] of [ceres/array_utils.cc] is not
    part of the sources.  It overwrites "exactly" [size] elements "with the
    sentinel value"; "a null/absent ... pointer is skipped". *)
Definition InvalidateArray (size : Z) (x : ptr) (m : memory) : memory :=
  match x with
  | None => m
  | Some p => fold_left (fun m' i => store m' (p + i) kImpossibleValue) (upto size) m
  end.

(** [InvalidateEvaluation] (lines 49-64); the memory after the call. *)
Definition InvalidateEvaluation (block : ResidualBlock)
    (cost residuals : ptr) (jacobians : option ptr_array) (m : memory) : memory :=
  let num_parameter_blocks := NumParameterBlocks block in
  let num_residuals := NumResiduals block in
  let m := InvalidateArray 1 cost m in
  let m := InvalidateArray num_residuals residuals m in
  match jacobians with
  | Some jacobians =>
      fold_left
        (fun m' i =>
           let parameter_block_size := parameter_block_size block i in
           InvalidateArray (int_mul num_residuals parameter_block_size)
                           (jacobians i) m')
        (upto num_parameter_blocks) m
  | None => m
  end.

(** [IsEvaluationValid] (lines 217-239).  [forallb] leaves the loop at the
    first block that fails, as the [return false] does. *)
Definition IsEvaluationValid (block : ResidualBlock) (parameters : ptr_array)
    (cost residuals : ptr) (jacobians : option ptr_array) (m : memory) : bool :=
  let num_parameter_blocks := NumParameterBlocks block in
  let num_residuals := NumResiduals block in
  if negb (IsArrayValid num_residuals residuals m) then false
  else
    match jacobians with
    | Some jacobians =>
        forallb
          (fun i =>
             let parameter_block_size := parameter_block_size block i in
             IsArrayValid (int_mul num_residuals parameter_block_size)
                          (jacobians i) m)
          (upto num_parameter_blocks)
    | None => true
    end.

(** *** The full dump *)

(** What [StringAppendF] prints for a double under ["%12g "]; the digits
    printed play no part below. *)
Variable format_g : double -> string.

(** How one cell is shown: "Uninitialized" when the sentinel is found at that
    cell, "the raw value otherwise, with non-finite values rendered
    verbatim".  The text is "fixed-width-aligned": a marker is followed by the
    blanks that fill its column. *)
Definition shown (x : double) : string :=
  if double_eq x kImpossibleValue then "Uninitialized "%string else format_g x.

(** Modelled from the spec: [AppendArrayToString] of [ceres/array_utils.cc] is
    not part of the sources.  Each of the [size] cells is appended to
    [result]: "the literal marker "Not Computed" when" the buffer "is absent",
    and as [shown] otherwise. *)
Definition AppendArrayToString (size : Z) (x : ptr) (m : memory)
    (result : string) : string :=
  fold_left
    (fun result i =>
       match x with
       | None => StringAppendF result "Not Computed  "
       | Some p => StringAppendF result (shown (m (p + i)))
       end)
    (upto size) result.

(** [p + j] on a [double*] that is not null.  For a null [p] the source's
    [p + j] is undefined (line 100 would read through it); the model keeps
    [NULL] there, and the statements on [EvaluationToString] that depend on
    the parameter values take parameter pointers that are not null. *)
Definition ptr_add (p : ptr) (j : Z) : ptr := option_map (fun a => a + j) p.

(** [EvaluationToString] (lines 66-115); [None] when a [CHECK_NOTNULL]
    aborts. *)
Definition EvaluationToString (block : ResidualBlock) (parameters : ptr_array)
    (cost residuals : ptr) (jacobians : option ptr_array) (m : memory)
    : option string :=
  match cost, residuals with
  | Some _, Some _ =>
      let num_parameter_blocks := NumParameterBlocks block in
      let num_residuals := NumResiduals block in
      let result := EmptyString in
      let result :=
        StringAppendF result
          ("Residual Block size: " ++ format_d num_parameter_blocks
           ++ " parameter blocks x " ++ format_d num_residuals
           ++ " residuals" ++ nl ++ nl) in
      let result := (result ++ dump_legend)%string in
      let space := "Residuals:     "%string in
      let result := (result ++ space)%string in
      let result := AppendArrayToString num_residuals residuals m result in
      let result := StringAppendF result (nl ++ nl) in
      let result :=
        fold_left
          (fun result i =>
             let parameter_block_size := parameter_block_size block i in
             let result :=
               StringAppendF result
                 ("Parameter Block " ++ format_d i ++ ", size: "
                  ++ format_d parameter_block_size ++ nl) in
             let result := StringAppendF result nl in
             let result :=
               fold_left
                 (fun result j =>
                    let result :=
                      AppendArrayToString 1 (ptr_add (parameters i) j) m result in
                    let result := StringAppendF result "| " in
                    let result :=
                      fold_left
                        (fun result k =>
                           AppendArrayToString 1
                             match jacobians with
                             | Some jacobians =>
                                 match jacobians i with
                                 | Some _ =>
                                     ptr_add
                                       (ptr_add (jacobians i)
                                                (int_mul k parameter_block_size))
                                       j
                                 | None => NULL
                                 end
                             | None => NULL
                             end
                             m result)
                        (upto num_residuals) result in
                    StringAppendF result nl)
                 (upto parameter_block_size) result in
             StringAppendF result nl)
          (upto num_parameter_blocks) result in
      let result := StringAppendF result nl in
      Some result
  | _, _ => None
  end.

(** The layout of the full dump in the words of the specification, for
    parameter buffers at [parameters i] and a residual vector at [residuals]:
    the derivative of residual [k] by scalar [j] of parameter block [i] is the
    cell at offset [k * size_i + j] of block [i]. *)
Definition jacobian_cell (block : ResidualBlock) (jacobians : option ptr_array)
    (m : memory) (i j k : Z) : string :=
  match jacobians with
  | Some jacobians =>
      match jacobians i with
      | Some q => shown (m (q + (k * parameter_block_size block i + j)))
      | None => "Not Computed  "%string
      end
  | None => "Not Computed  "%string
  end.

Definition parameter_line (block : ResidualBlock) (parameters : Z -> addr)
    (jacobians : option ptr_array) (m : memory) (i j : Z) : string :=
  (shown (m (parameters i + j)) ++ "| "
   ++ concat_map (jacobian_cell block jacobians m i j) (upto (NumResiduals block))
   ++ nl)%string.

Definition parameter_block_text (block : ResidualBlock) (parameters : Z -> addr)
    (jacobians : option ptr_array) (m : memory) (i : Z) : string :=
  ("Parameter Block " ++ format_d i ++ ", size: "
   ++ format_d (parameter_block_size block i) ++ nl ++ nl
   ++ concat_map (parameter_line block parameters jacobians m i)
                 (upto (parameter_block_size block i))
   ++ nl)%string.

Definition renderFullDump (block : ResidualBlock) (parameters : Z -> addr)
    (residuals : addr) (jacobians : option ptr_array) (m : memory) : string :=
  ("Residual Block size: " ++ format_d (NumParameterBlocks block)
   ++ " parameter blocks x " ++ format_d (NumResiduals block)
   ++ " residuals" ++ nl ++ nl
   ++ dump_legend
   ++ "Residuals:     "
   ++ concat_map (fun k => shown (m (residuals + k))) (upto (NumResiduals block))
   ++ nl ++ nl
   ++ concat_map (parameter_block_text block parameters jacobians m)
                 (upto (NumParameterBlocks block))
   ++ nl)%string.

(** *** The error report *)

(** [UserSuppliedNumberCommentary] (lines 117-125). *)
Definition UserSuppliedNumberCommentary (x : double) : string :=
  if negb (IsFinite x) then "ERROR: Value is not finite"%string
  else if double_eq x kImpossibleValue
       then "ERROR: Value was not set by cost function"%string
       else "OK"%string.

(** Step (3) of [EvaluationErrorReportString] (lines 176-186) as it is
    written, after [CHECK_NOTNULL(residuals)].  The call on line 182 hands
    [StringAppendF] the format and the commentary alone: neither [&result] nor
    the index nor the value is among its arguments, so no statement of the
    loop body writes to [result]. *)
Definition report_residuals (block : ResidualBlock) (residuals : addr)
    (m : memory) (result : string) : string :=
  let num_residuals := NumResiduals block in
  if negb (IsArrayValid num_residuals (Some residuals) m) then
    let result :=
      (result ++ "Problem exists in: User-returned residual values (r[N])"
       ++ nl ++ nl)%string in
    fold_left
      (fun result i =>
         if negb (IsUserSuppliedValueValid (m (residuals + i)))
            || (num_residuals <? 50)
         then let commentary := UserSuppliedNumberCommentary (m (residuals + i)) in
              result
         else result)
      (upto num_residuals) result
  else result.

(** Step (4) of [EvaluationErrorReportString] (lines 189-197) as it is
    written.  The loop bound [parameter_block_size] is declared only inside
    the loop body, so it names nothing where the loop header reads it:
    [bound] stands for whatever it is taken to be.  Every round validates
    [residuals], not [jacobians[i]]. *)
Definition jacobians_all_ok (bound : Z) (block : ResidualBlock)
    (residuals : addr) (jacobians : ptr_array) (m : memory) : bool :=
  let num_residuals := NumResiduals block in
  forallb
    (fun i =>
       let parameter_block_size := parameter_block_size block i in
       negb (match jacobians i with Some _ => true | None => false end
             && negb (IsArrayValid (int_mul parameter_block_size num_residuals)
                                   (Some residuals) m)))
    (upto bound).

(** *** Predicates of the statements *)

(** A value the cost function wrote and that is finite. *)
Definition written (x : double) : Prop :=
  IsFinite x = true /\ double_eq x kImpossibleValue = false.

(** A value that is the sentinel, or is NaN, +Infinity or -Infinity. *)
Definition unusable (x : double) : Prop :=
  x = kImpossibleValue \/ double_eq x kImpossibleValue = true
  \/ x = S754_nan \/ x = S754_infinity false \/ x = S754_infinity true.

(** Every one of the [len] cells at [p] is [written]; nothing is asked of a
    [NULL] buffer. *)
Definition cells_written (p : ptr) (len : Z) (m : memory) : Prop :=
  forall a, in_buffer p len a -> written (m a).

(** The residual vector and every present Jacobian block hold written values
    only. *)
Definition evaluation_written (block : ResidualBlock) (residuals : ptr)
    (jacobians : option ptr_array) (m : memory) : Prop :=
  cells_written residuals (NumResiduals block) m
  /\ forall js i, jacobians = Some js -> 0 <= i < NumParameterBlocks block ->
       cells_written (js i) (NumResiduals block * parameter_block_size block i) m.

(** Two memories hold the same values in the [len] cells at [p]. *)
Definition same_cells (p : ptr) (len : Z) (m1 m2 : memory) : Prop :=
  forall a, in_buffer p len a -> m1 a = m2 a.

(** The cells [InvalidateEvaluation] is to overwrite. *)
Definition poisoned (block : ResidualBlock) (cost residuals : ptr)
    (jacobians : option ptr_array) (a : addr) : Prop :=
  in_buffer cost 1 a
  \/ in_buffer residuals (NumResiduals block) a
  \/ exists js i, jacobians = Some js /\ 0 <= i < NumParameterBlocks block
       /\ in_buffer (js i) (NumResiduals block * parameter_block_size block i) a.

(** The cells the cost function has to write: the residual vector and every
    present Jacobian block. *)
Definition required (block : ResidualBlock) (residuals : ptr)
    (jacobians : option ptr_array) (a : addr) : Prop :=
  in_buffer residuals (NumResiduals block) a
  \/ exists js i, jacobians = Some js /\ 0 <= i < NumParameterBlocks block
       /\ in_buffer (js i) (NumResiduals block * parameter_block_size block i) a.

(** The same cells as a test, with the block lengths as the code computes
    them. *)
Definition poisonedb (block : ResidualBlock) (cost residuals : ptr)
    (jacobians : option ptr_array) (a : addr) : bool :=
  in_bufferb cost 1 a
  || in_bufferb residuals (NumResiduals block) a
  || match jacobians with
     | Some js =>
         existsb (fun i => in_bufferb (js i)
                             (int_mul (NumResiduals block)
                                      (parameter_block_size block i)) a)
                 (upto (NumParameterBlocks block))
     | None => false
     end.

(** ** Loops, integers and doubles *)

Lemma In_upto (n i : Z) : In i (upto n) <-> 0 <= i < n.
Proof.
  unfold upto. rewrite in_map_iff. split.
  - intros (k & <- & Hk). apply in_seq in Hk. lia.
  - intros Hi. exists (Z.to_nat i). split; [lia | apply in_seq; lia].
Qed.

Lemma forallb_agree (f g : Z -> bool) (l : list Z) :
  (forall i, In i l -> f i = g i) -> forallb f l = forallb g l.
Proof.
  induction l as [|i l IH]; intros Hfg; simpl; [reflexivity|].
  rewrite Hfg by now left. f_equal. apply IH. intros j Hj. apply Hfg. now right.
Qed.

Lemma wrap_int_exact (z : Z) : INT_MIN <= z <= INT_MAX -> wrap_int z = z.
Proof.
  unfold wrap_int, INT_MIN, INT_MAX. intros Hz.
  rewrite Z.mod_small; lia.
Qed.

Lemma well_formed_size (block : ResidualBlock) (i : Z) :
  well_formed block = true -> 0 <= i < NumParameterBlocks block ->
  0 <= NumResiduals block
  /\ 0 <= parameter_block_size block i
  /\ NumResiduals block * parameter_block_size block i <= INT_MAX.
Proof.
  unfold well_formed, NumParameterBlocks, parameter_block_size.
  intros Hwf Hi.
  repeat (apply andb_true_iff in Hwf; destruct Hwf as [Hwf ?]).
  match goal with H : forallb _ _ = true |- _ => rename H into Hall end.
  rewrite forallb_forall in Hall.
  assert (Hin : In (nth (Z.to_nat i) (parameter_blocks block) {| Size := 0 |})
                   (parameter_blocks block)) by (apply nth_In; lia).
  apply Hall, andb_true_iff in Hin. lia.
Qed.

Lemma well_formed_int_mul (block : ResidualBlock) (i : Z) :
  well_formed block = true -> 0 <= i < NumParameterBlocks block ->
  int_mul (NumResiduals block) (parameter_block_size block i)
  = NumResiduals block * parameter_block_size block i.
Proof.
  intros Hwf Hi. destruct (well_formed_size block i Hwf Hi) as (Hn & Hs & Hp).
  unfold int_mul. apply wrap_int_exact. unfold INT_MIN. nia.
Qed.

Lemma double_eq_refl (x : double) : IsFinite x = true -> double_eq x x = true.
Proof.
  destruct x as [s | s | | s mant e]; simpl; try discriminate; intros _.
  - reflexivity.
  - unfold double_eq, SFeqb, SFcompare.
    rewrite Z.compare_refl, Pos.compare_cont_refl. now destruct s.
Qed.

Lemma written_iff (x : double) : IsUserSuppliedValueValid x = true <-> written x.
Proof.
  unfold IsUserSuppliedValueValid, written.
  now rewrite andb_true_iff, negb_true_iff.
Qed.

Lemma unusable_not_valid (x : double) :
  unusable x -> IsUserSuppliedValueValid x = false.
Proof.
  unfold IsUserSuppliedValueValid.
  intros [-> | [Heq | [-> | [-> | ->]]]]; try reflexivity.
  - destruct (IsFinite kImpossibleValue) eqn:Hfin; [|reflexivity].
    now rewrite double_eq_refl.
  - rewrite Heq. apply andb_false_r.
Qed.

Lemma sentinel_not_valid : IsUserSuppliedValueValid kImpossibleValue = false.
Proof. apply unusable_not_valid. now left. Qed.

(** ** The array validator *)

Lemma IsArrayValid_present (size : Z) (q : addr) (m : memory) :
  IsArrayValid size (Some q) m = true <-> cells_written (Some q) size m.
Proof.
  unfold IsArrayValid, cells_written. rewrite forallb_forall. split.
  - intros Hall a (q' & [= <-] & Ha). apply written_iff.
    replace a with (q + (a - q)) by lia. apply Hall, In_upto. lia.
  - intros Hall i Hi%In_upto. apply written_iff, Hall. exists q. split; [reflexivity | lia].
Qed.

Lemma IsArrayValid_null (size : Z) (m : memory) :
  IsArrayValid size NULL m = true <-> size <= 0.
Proof.
  unfold IsArrayValid, NULL. rewrite negb_true_iff, Z.ltb_ge. reflexivity.
Qed.

Lemma IsArrayValid_unusable (size : Z) (p : ptr) (m : memory) (a : addr) :
  in_buffer p size a -> unusable (m a) -> IsArrayValid size p m = false.
Proof.
  intros Ha Hbad.
  destruct (IsArrayValid size p m) eqn:Hv; [|reflexivity].
  destruct Ha as (q & -> & Ha).
  rewrite IsArrayValid_present in Hv.
  assert (Hw : written (m a)) by (apply Hv; exists q; split; [reflexivity | lia]).
  apply written_iff in Hw. rewrite (unusable_not_valid _ Hbad) in Hw. discriminate.
Qed.

Lemma IsArrayValid_same_cells (size : Z) (p : ptr) (m1 m2 : memory) :
  same_cells p size m1 m2 -> IsArrayValid size p m1 = IsArrayValid size p m2.
Proof.
  intros Hsame. destruct p as [q|]; [|reflexivity].
  unfold IsArrayValid. apply forallb_agree.
  intros i Hi%In_upto. rewrite Hsame; [reflexivity|].
  exists q. split; [reflexivity | lia].
Qed.

(** ** The evaluation validator *)

Lemma IsEvaluationValid_true_iff (block : ResidualBlock) (parameters : ptr_array)
    (cost residuals : ptr) (jacobians : option ptr_array) (m : memory) :
  IsEvaluationValid block parameters cost residuals jacobians m = true
  <-> IsArrayValid (NumResiduals block) residuals m = true
      /\ forall js i, jacobians = Some js -> 0 <= i < NumParameterBlocks block ->
           IsArrayValid (int_mul (NumResiduals block) (parameter_block_size block i))
                        (js i) m = true.
Proof.
  unfold IsEvaluationValid.
  destruct (IsArrayValid (NumResiduals block) residuals m); simpl.
  - destruct jacobians as [js|].
    + rewrite forallb_forall. split.
      * intros Hall. split; [reflexivity|].
        intros js' i [= <-] Hi. apply Hall, In_upto, Hi.
      * intros [_ Hall] i Hi%In_upto. now apply Hall.
    + split; [|reflexivity]. intros _. split; [reflexivity | discriminate].
  - split; [discriminate | intros [Hfalse _]; discriminate].
Qed.

(** What holds of valid buffers: for a well-formed residual block whose
    residual vector and Jacobian blocks hold only finite values that differ
    from the sentinel, every Jacobian block of non-zero length being present
    (or the Jacobian array pointer being null), [IsEvaluationValid] returns
    true. *)
Lemma valid_when_written_and_present (block : ResidualBlock)
    (parameters : ptr_array) (cost : ptr) (residuals : addr)
    (jacobians : option ptr_array) (m : memory) :
  well_formed block = true ->
  evaluation_written block (Some residuals) jacobians m ->
  (forall js i, jacobians = Some js -> 0 <= i < NumParameterBlocks block ->
     js i = NULL -> NumResiduals block * parameter_block_size block i <= 0) ->
  IsEvaluationValid block parameters cost (Some residuals) jacobians m = true.
Proof.
  intros Hwf [Hres Hjac] Hpresent. apply IsEvaluationValid_true_iff. split.
  - now apply IsArrayValid_present.
  - intros js i -> Hi. rewrite well_formed_int_mul by assumption.
    destruct (js i) as [q|] eqn:Hq.
    + apply IsArrayValid_present. rewrite <- Hq. now apply (Hjac js i).
    + apply IsArrayValid_null. now apply (Hpresent js i).
Qed.

(** A null Jacobian array pointer leaves the verdict to the residuals. *)
Lemma null_jacobian_array_is_skipped (block : ResidualBlock)
    (parameters : ptr_array) (cost residuals : ptr) (m : memory) :
  IsEvaluationValid block parameters cost residuals None m
  = IsArrayValid (NumResiduals block) residuals m.
Proof.
  unfold IsEvaluationValid.
  now destruct (IsArrayValid (NumResiduals block) residuals m).
Qed.

(** C2: for a well-formed residual block, when a cell of the residual vector,
    or a cell among the first [numResiduals * size_i] of a present Jacobian
    block [i], holds the sentinel, NaN, +Infinity or -Infinity,
    [IsEvaluationValid] returns false. *)
Theorem invalid_when_cell_unusable (block : ResidualBlock)
    (parameters : ptr_array) (cost residuals : ptr)
    (jacobians : option ptr_array) (m : memory) (a : addr) :
  well_formed block = true ->
  unusable (m a) ->
  in_buffer residuals (NumResiduals block) a
  \/ (exists js i, jacobians = Some js /\ 0 <= i < NumParameterBlocks block
        /\ in_buffer (js i) (NumResiduals block * parameter_block_size block i) a) ->
  IsEvaluationValid block parameters cost residuals jacobians m = false.
Proof.
  intros Hwf Hbad Hwhere.
  destruct (IsEvaluationValid block parameters cost residuals jacobians m) eqn:Hv;
    [|reflexivity].
  apply IsEvaluationValid_true_iff in Hv. destruct Hv as [Hres Hjac].
  destruct Hwhere as [Ha | (js & i & Hjs & Hi & Ha)].
  - rewrite (IsArrayValid_unusable _ _ _ _ Ha Hbad) in Hres. discriminate.
  - specialize (Hjac js i Hjs Hi). rewrite well_formed_int_mul in Hjac by assumption.
    rewrite (IsArrayValid_unusable _ _ _ _ Ha Hbad) in Hjac. discriminate.
Qed.

(** C4: for a residual block with [numResiduals > 0], a null residual vector
    pointer makes [IsEvaluationValid] return false. *)
Theorem invalid_when_residuals_null (block : ResidualBlock)
    (parameters : ptr_array) (cost : ptr) (jacobians : option ptr_array)
    (m : memory) :
  0 < NumResiduals block ->
  IsEvaluationValid block parameters cost NULL jacobians m = false.
Proof.
  intros Hn. unfold IsEvaluationValid, IsArrayValid, NULL.
  apply Z.ltb_lt in Hn. now rewrite Hn.
Qed.

(** C10: two calls of [IsEvaluationValid] on a well-formed block whose
    memories agree on the residual vector and on every present Jacobian block
    return the same verdict, whatever the cost pointers, the parameter
    pointers and the rest of the two memories (cost and parameter values
    among it) are. *)
Theorem verdict_ignores_cost_and_parameters (block : ResidualBlock)
    (parameters1 parameters2 : ptr_array) (cost1 cost2 residuals : ptr)
    (jacobians : option ptr_array) (m1 m2 : memory) :
  well_formed block = true ->
  same_cells residuals (NumResiduals block) m1 m2 ->
  (forall js i, jacobians = Some js -> 0 <= i < NumParameterBlocks block ->
     same_cells (js i) (NumResiduals block * parameter_block_size block i) m1 m2) ->
  IsEvaluationValid block parameters1 cost1 residuals jacobians m1
  = IsEvaluationValid block parameters2 cost2 residuals jacobians m2.
Proof.
  intros Hwf Hres Hjac. unfold IsEvaluationValid.
  rewrite (IsArrayValid_same_cells _ _ _ _ Hres).
  destruct (IsArrayValid (NumResiduals block) residuals m2); simpl; [|reflexivity].
  destruct jacobians as [js|]; [|reflexivity].
  apply forallb_agree. intros i Hi%In_upto.
  apply IsArrayValid_same_cells. rewrite well_formed_int_mul by assumption.
  now apply (Hjac js i).
Qed.

(** ** Sentinel poisoning *)

Lemma in_bufferb_iff (p : ptr) (len : Z) (a : addr) :
  in_bufferb p len a = true <-> in_buffer p len a.
Proof.
  unfold in_bufferb, in_buffer. destruct p as [q|].
  - rewrite andb_true_iff, Z.leb_le, Z.ltb_lt. split.
    + intros Ha. exists q. now split.
    + now intros (q' & [= <-] & Ha).
  - split; [discriminate | now intros (q & Hq & _)].
Qed.

Lemma existsb_offset (q a size : Z) :
  existsb (fun i => a =? q + i) (upto size) = in_bufferb (Some q) size a.
Proof.
  apply eq_true_iff_eq. rewrite existsb_exists, in_bufferb_iff. split.
  - intros (i & Hi%In_upto & Heq%Z.eqb_eq). exists q. split; [reflexivity | lia].
  - intros (q' & [= <-] & Ha). exists (a - q). split; [apply In_upto | apply Z.eqb_eq]; lia.
Qed.

Lemma fold_store_lookup (q : addr) (l : list Z) (m : memory) (a : addr) :
  fold_left (fun m' i => store m' (q + i) kImpossibleValue) l m a
  = if existsb (fun i => a =? q + i) l then kImpossibleValue else m a.
Proof.
  revert m. induction l as [|i l IH]; intros m; simpl; [reflexivity|].
  rewrite IH. unfold store.
  destruct (existsb (fun j => a =? q + j) l); [now rewrite orb_true_r|].
  rewrite orb_false_r. reflexivity.
Qed.

Lemma InvalidateArray_lookup (size : Z) (p : ptr) (m : memory) (a : addr) :
  InvalidateArray size p m a
  = if in_bufferb p size a then kImpossibleValue else m a.
Proof.
  destruct p as [q|]; [|reflexivity].
  unfold InvalidateArray. now rewrite fold_store_lookup, existsb_offset.
Qed.

Lemma fold_InvalidateArray_lookup (len : Z -> Z) (js : ptr_array) (l : list Z)
    (m : memory) (a : addr) :
  fold_left (fun m' i => InvalidateArray (len i) (js i) m') l m a
  = if existsb (fun i => in_bufferb (js i) (len i) a) l
    then kImpossibleValue else m a.
Proof.
  revert m. induction l as [|i l IH]; intros m; simpl; [reflexivity|].
  rewrite IH, InvalidateArray_lookup.
  destruct (existsb (fun j => in_bufferb (js j) (len j) a) l); [now rewrite orb_true_r|].
  rewrite orb_false_r. reflexivity.
Qed.

Lemma InvalidateEvaluation_lookup (block : ResidualBlock) (cost residuals : ptr)
    (jacobians : option ptr_array) (m : memory) (a : addr) :
  InvalidateEvaluation block cost residuals jacobians m a
  = if poisonedb block cost residuals jacobians a then kImpossibleValue else m a.
Proof.
  unfold InvalidateEvaluation, poisonedb. destruct jacobians as [js|].
  - rewrite (fold_InvalidateArray_lookup
               (fun i => int_mul (NumResiduals block) (parameter_block_size block i))).
    rewrite !InvalidateArray_lookup.
    destruct (existsb _ _); [now rewrite orb_true_r|]. rewrite orb_false_r.
    destruct (in_bufferb residuals _ a); [now rewrite orb_true_r|].
    now rewrite orb_false_r.
  - rewrite !InvalidateArray_lookup, orb_false_r.
    destruct (in_bufferb residuals _ a); [now rewrite orb_true_r|].
    now rewrite orb_false_r.
Qed.

Lemma poisonedb_iff (block : ResidualBlock) (cost residuals : ptr)
    (jacobians : option ptr_array) (a : addr) :
  well_formed block = true ->
  poisonedb block cost residuals jacobians a = true
  <-> poisoned block cost residuals jacobians a.
Proof.
  intros Hwf. unfold poisonedb, poisoned.
  rewrite !orb_true_iff, !in_bufferb_iff. split.
  - intros [[Hc | Hr] | Hj]; [now left | now right; left | right; right].
    destruct jacobians as [js|]; [|discriminate].
    apply existsb_exists in Hj. destruct Hj as (i & Hi%In_upto & Ha).
    exists js, i. rewrite well_formed_int_mul in Ha by assumption.
    now rewrite <- in_bufferb_iff.
  - intros [Hc | [Hr | (js & i & -> & Hi & Ha)]]; [now left; left | now left; right |].
    right. apply existsb_exists. exists i. split; [now apply In_upto|].
    rewrite well_formed_int_mul by assumption. now apply in_bufferb_iff.
Qed.

(** C5: on a well-formed residual block [InvalidateEvaluation] leaves the
    sentinel in the cost cell, in the [numResiduals] cells of the residual
    vector and, when the Jacobian array pointer is not null, in the
    [numResiduals * size_i] cells of every Jacobian block [i] whose pointer is
    not null; every other cell of the memory keeps its value. *)
Theorem InvalidateEvaluation_overwrites_exactly (block : ResidualBlock)
    (cost residuals : ptr) (jacobians : option ptr_array) (m : memory)
    (a : addr) :
  well_formed block = true ->
  (poisoned block cost residuals jacobians a ->
   InvalidateEvaluation block cost residuals jacobians m a = kImpossibleValue)
  /\ (~ poisoned block cost residuals jacobians a ->
      InvalidateEvaluation block cost residuals jacobians m a = m a).
Proof.
  intros Hwf. rewrite InvalidateEvaluation_lookup.
  pose proof (poisonedb_iff block cost residuals jacobians a Hwf) as Hiff.
  destruct (poisonedb block cost residuals jacobians a); split; intros Hp.
  - reflexivity.
  - exfalso. now apply Hp, Hiff.
  - apply Hiff in Hp. discriminate.
  - reflexivity.
Qed.

(** C6: for a residual block with [numResiduals >= 1], [IsEvaluationValid]
    on the buffers as [InvalidateEvaluation] left them returns false. *)
Theorem poisoned_evaluation_is_invalid (block : ResidualBlock)
    (parameters : ptr_array) (cost residuals : ptr)
    (jacobians : option ptr_array) (m : memory) :
  1 <= NumResiduals block ->
  IsEvaluationValid block parameters cost residuals jacobians
    (InvalidateEvaluation block cost residuals jacobians m) = false.
Proof.
  intros Hn. unfold IsEvaluationValid.
  set (m' := InvalidateEvaluation block cost residuals jacobians m).
  enough (Hres : IsArrayValid (NumResiduals block) residuals m' = false)
    by now rewrite Hres.
  destruct residuals as [r|].
  - apply (IsArrayValid_unusable _ _ _ r).
    + exists r. split; [reflexivity | lia].
    + left. unfold m'. rewrite InvalidateEvaluation_lookup.
      assert (Hin : in_bufferb (Some r) (NumResiduals block) r = true)
        by (apply in_bufferb_iff; exists r; split; [reflexivity | lia]).
      unfold poisonedb. now rewrite Hin, orb_true_r.
  - unfold IsArrayValid. apply negb_false_iff, Z.ltb_lt. lia.
Qed.

(** ** The full dump *)

Lemma string_app_assoc (a b c : string) : ((a ++ b) ++ c = a ++ (b ++ c))%string.
Proof. induction a as [|ch a IH]; simpl; [reflexivity | now rewrite IH]. Qed.

Lemma string_app_nil_r (a : string) : (a ++ EmptyString = a)%string.
Proof. induction a as [|ch a IH]; simpl; [reflexivity | now rewrite IH]. Qed.

(** A loop whose every round appends one text to [result] appends the texts
    of all its rounds. *)
Lemma fold_left_appends (step : string -> Z -> string) (text : Z -> string)
    (l : list Z) :
  (forall i, In i l -> forall result, step result i = (result ++ text i)%string) ->
  forall result, fold_left step l result = (result ++ concat_map text l)%string.
Proof.
  induction l as [|i l IH]; intros Hstep result; simpl.
  - now rewrite string_app_nil_r.
  - rewrite IH by (intros j Hj; apply Hstep; now right).
    rewrite Hstep by now left. apply string_app_assoc.
Qed.

Lemma AppendArrayToString_present (size : Z) (q : addr) (m : memory)
    (result : string) :
  AppendArrayToString size (Some q) m result
  = (result ++ concat_map (fun i => shown (m (q + i))) (upto size))%string.
Proof. unfold AppendArrayToString. now apply fold_left_appends. Qed.

Lemma AppendArrayToString_one (q : addr) (m : memory) (result : string) :
  AppendArrayToString 1 (Some q) m result = (result ++ shown (m q))%string.
Proof.
  rewrite AppendArrayToString_present. simpl.
  now rewrite Z.add_0_r, string_app_nil_r.
Qed.

Lemma AppendArrayToString_one_null (m : memory) (result : string) :
  AppendArrayToString 1 NULL m result = (result ++ "Not Computed  ")%string.
Proof. reflexivity. Qed.

Lemma well_formed_row_offset (block : ResidualBlock) (i k : Z) :
  well_formed block = true -> 0 <= i < NumParameterBlocks block ->
  0 <= k < NumResiduals block ->
  int_mul k (parameter_block_size block i) = k * parameter_block_size block i.
Proof.
  intros Hwf Hi Hk. destruct (well_formed_size block i Hwf Hi) as (Hn & Hs & Hp).
  unfold int_mul. apply wrap_int_exact. unfold INT_MIN. nia.
Qed.

Lemma jacobian_round (block : ResidualBlock) (jacobians : option ptr_array)
    (m : memory) (i j k : Z) (result : string) :
  well_formed block = true -> 0 <= i < NumParameterBlocks block ->
  0 <= k < NumResiduals block ->
  AppendArrayToString 1
    match jacobians with
    | Some jacobians =>
        match jacobians i with
        | Some _ =>
            ptr_add (ptr_add (jacobians i) (int_mul k (parameter_block_size block i))) j
        | None => NULL
        end
    | None => NULL
    end m result
  = (result ++ jacobian_cell block jacobians m i j k)%string.
Proof.
  intros Hwf Hi Hk. unfold jacobian_cell.
  destruct jacobians as [js|]; [|reflexivity].
  destruct (js i) as [q|]; [|reflexivity].
  simpl ptr_add. rewrite AppendArrayToString_one.
  rewrite well_formed_row_offset by assumption.
  now rewrite Z.add_assoc.
Qed.

Lemma parameter_round (block : ResidualBlock) (parameters : Z -> addr)
    (jacobians : option ptr_array) (m : memory) (i j : Z) (result : string) :
  well_formed block = true -> 0 <= i < NumParameterBlocks block ->
  StringAppendF
    (fold_left
       (fun result k =>
          AppendArrayToString 1
            match jacobians with
            | Some jacobians =>
                match jacobians i with
                | Some _ =>
                    ptr_add (ptr_add (jacobians i)
                                     (int_mul k (parameter_block_size block i))) j
                | None => NULL
                end
            | None => NULL
            end m result)
       (upto (NumResiduals block))
       (StringAppendF
          (AppendArrayToString 1 (ptr_add (Some (parameters i)) j) m result)
          "| "))
    nl
  = (result ++ parameter_line block parameters jacobians m i j)%string.
Proof.
  intros Hwf Hi. unfold StringAppendF, parameter_line.
  rewrite (fold_left_appends _ (jacobian_cell block jacobians m i j))
    by (intros k Hk%In_upto r; now apply jacobian_round).
  simpl ptr_add. rewrite AppendArrayToString_one.
  now rewrite !string_app_assoc.
Qed.

Lemma block_round (block : ResidualBlock) (parameters : Z -> addr)
    (jacobians : option ptr_array) (m : memory) (i : Z) (result : string) :
  well_formed block = true -> 0 <= i < NumParameterBlocks block ->
  StringAppendF
    (fold_left
       (fun result j =>
          StringAppendF
            (fold_left
               (fun result k =>
                  AppendArrayToString 1
                    match jacobians with
                    | Some jacobians =>
                        match jacobians i with
                        | Some _ =>
                            ptr_add (ptr_add (jacobians i)
                                       (int_mul k (parameter_block_size block i))) j
                        | None => NULL
                        end
                    | None => NULL
                    end m result)
               (upto (NumResiduals block))
               (StringAppendF
                  (AppendArrayToString 1 (ptr_add (Some (parameters i)) j) m result)
                  "| "))
            nl)
       (upto (parameter_block_size block i))
       (StringAppendF
          (StringAppendF result
             ("Parameter Block " ++ format_d i ++ ", size: "
              ++ format_d (parameter_block_size block i) ++ nl))
          nl))
    nl
  = (result ++ parameter_block_text block parameters jacobians m i)%string.
Proof.
  intros Hwf Hi.
  rewrite (fold_left_appends _ (parameter_line block parameters jacobians m i))
    by (intros j _ r; now apply parameter_round).
  unfold StringAppendF, parameter_block_text.
  now rewrite !string_app_assoc.
Qed.

(** C9: with the cost and residual pointers not null, [EvaluationToString]
    on a well-formed block returns, whatever the buffers hold, a text laid
    out as [renderFullDump] says: for each parameter block [i], one line per
    scalar [j] showing the parameter's value and then, for each residual [k],
    the cell at offset [k * size_i + j] of Jacobian block [i], printed as
    "Not Computed" when that block (or the Jacobian array) is absent and as
    "Uninitialized" when the cell holds the sentinel. *)
Theorem EvaluationToString_layout (block : ResidualBlock)
    (parameters : Z -> addr) (cost residuals : addr)
    (jacobians : option ptr_array) (m : memory) :
  well_formed block = true ->
  EvaluationToString block (fun i => Some (parameters i)) (Some cost)
    (Some residuals) jacobians m
  = Some (renderFullDump block parameters residuals jacobians m).
Proof.
  intros Hwf. unfold EvaluationToString. cbv zeta. f_equal.
  rewrite (fold_left_appends _ (parameter_block_text block parameters jacobians m))
    by (intros i Hi%In_upto r; now apply block_round).
  rewrite AppendArrayToString_present.
  unfold StringAppendF, renderFullDump.
  change (EmptyString ++ ?text)%string with text.
  now rewrite !string_app_assoc.
Qed.

(** ** The error report *)

Lemma commentary_not_finite (x : double) :
  IsFinite x = false ->
  UserSuppliedNumberCommentary x = "ERROR: Value is not finite"%string.
Proof. intros Hx. unfold UserSuppliedNumberCommentary. now rewrite Hx. Qed.

Lemma commentary_not_set (x : double) :
  IsFinite x = true -> double_eq x kImpossibleValue = true ->
  UserSuppliedNumberCommentary x
  = "ERROR: Value was not set by cost function"%string.
Proof. intros Hx Hs. unfold UserSuppliedNumberCommentary. now rewrite Hx, Hs. Qed.

Lemma commentary_ok (x : double) :
  written x -> UserSuppliedNumberCommentary x = "OK"%string.
Proof. intros [Hx Hs]. unfold UserSuppliedNumberCommentary. now rewrite Hx, Hs. Qed.

Lemma commentary_ok_iff (x : double) :
  UserSuppliedNumberCommentary x = "OK"%string <-> IsUserSuppliedValueValid x = true.
Proof.
  unfold UserSuppliedNumberCommentary, IsUserSuppliedValueValid.
  destruct (IsFinite x), (double_eq x kImpossibleValue); simpl;
    split; intros; try discriminate; reflexivity.
Qed.

Lemma fold_left_untouched (test : Z -> bool) (l : list Z) (result : string) :
  fold_left (fun result i => if test i then result else result) l result = result.
Proof.
  induction l as [|i l IH]; simpl; [reflexivity|]. now destruct (test i).
Qed.

(** The residual section as written is its heading and nothing else. *)
Lemma report_residuals_heading_only (block : ResidualBlock) (residuals : addr)
    (m : memory) (result : string) :
  report_residuals block residuals m result
  = if IsArrayValid (NumResiduals block) (Some residuals) m then result
    else (result ++ "Problem exists in: User-returned residual values (r[N])"
          ++ nl ++ nl)%string.
Proof.
  unfold report_residuals.
  destruct (IsArrayValid (NumResiduals block) (Some residuals) m); simpl;
    [reflexivity|].
  apply (fold_left_untouched
           (fun i => negb (IsUserSuppliedValueValid (m (residuals + i)))
                     || (NumResiduals block <? 50))).
Qed.

(** The Jacobian check as written passes as soon as the cells it reads at
    [residuals] are valid, whatever the Jacobian blocks hold. *)
Lemma jacobians_all_ok_of_residuals (bound : Z) (block : ResidualBlock)
    (residuals : addr) (jacobians : ptr_array) (m : memory) :
  (forall i, 0 <= i < bound ->
     IsArrayValid (int_mul (parameter_block_size block i) (NumResiduals block))
                  (Some residuals) m = true) ->
  jacobians_all_ok bound block residuals jacobians m = true.
Proof.
  intros Hres. unfold jacobians_all_ok. apply forallb_forall.
  intros i Hi%In_upto. rewrite (Hres i Hi). simpl. now rewrite andb_false_r.
Qed.

(** ** More on the evaluation validator *)

Lemma forallb_false_exists (f : Z -> bool) (l : list Z) :
  forallb f l = false -> exists i, In i l /\ f i = false.
Proof.
  induction l as [|i l IH]; simpl; [discriminate|].
  destruct (f i) eqn:Hfi; simpl.
  - intros (j & Hj & Hfj)%IH. exists j. split; [now right | exact Hfj].
  - intros _. exists i. split; [now left | exact Hfi].
Qed.

(** On buffers that are all present the verdict is exact: with a residual
    vector and no null Jacobian entry, it is true when, and only when, every
    cell of the residual vector and of the Jacobian blocks holds a finite
    value other than the sentinel. *)
Theorem IsEvaluationValid_exact_when_present (block : ResidualBlock)
    (parameters : ptr_array) (cost : ptr) (residuals : addr)
    (jacobians : option ptr_array) (m : memory) :
  well_formed block = true ->
  (forall js i, jacobians = Some js -> 0 <= i < NumParameterBlocks block ->
     js i <> NULL) ->
  IsEvaluationValid block parameters cost (Some residuals) jacobians m = true
  <-> evaluation_written block (Some residuals) jacobians m.
Proof.
  intros Hwf Hpresent.
  rewrite IsEvaluationValid_true_iff, IsArrayValid_present.
  unfold evaluation_written. split; intros [Hres Hjac]; (split; [exact Hres|]).
  - intros js i Hjs Hi. specialize (Hjac js i Hjs Hi).
    rewrite well_formed_int_mul in Hjac by assumption.
    destruct (js i) as [q|] eqn:Hq; [|now destruct (Hpresent js i Hjs Hi)].
    now apply IsArrayValid_present.
  - intros js i Hjs Hi. rewrite well_formed_int_mul by assumption.
    destruct (js i) as [q|] eqn:Hq; [|now destruct (Hpresent js i Hjs Hi)].
    apply IsArrayValid_present. rewrite <- Hq. now apply (Hjac js i).
Qed.

(** A block without residuals has nothing to check: the verdict is true for
    any pointers, null ones among them, and any memory. *)
Theorem no_residuals_always_valid (block : ResidualBlock)
    (parameters : ptr_array) (cost residuals : ptr)
    (jacobians : option ptr_array) (m : memory) :
  NumResiduals block = 0 ->
  IsEvaluationValid block parameters cost residuals jacobians m = true.
Proof.
  intros Hn. apply IsEvaluationValid_true_iff. rewrite Hn. split.
  - now destruct residuals.
  - intros js i _ _. unfold int_mul. rewrite Z.mul_0_l. now destruct (js i).
Qed.

(** A cell the cost function had to write and that still holds what
    [InvalidateEvaluation] left there makes the verdict false, whatever was
    written elsewhere. *)
Theorem unwritten_cell_is_detected (block : ResidualBlock)
    (parameters : ptr_array) (cost residuals : ptr)
    (jacobians : option ptr_array) (m m' : memory) (a : addr) :
  well_formed block = true ->
  required block residuals jacobians a ->
  m' a = InvalidateEvaluation block cost residuals jacobians m a ->
  IsEvaluationValid block parameters cost residuals jacobians m' = false.
Proof.
  intros Hwf Hreq Hleft.
  assert (Hbad : unusable (m' a)).
  { left. rewrite Hleft, InvalidateEvaluation_lookup.
    assert (Hp : poisoned block cost residuals jacobians a)
      by (destruct Hreq as [Hr | Hj]; [now right; left | now right; right]).
    apply poisonedb_iff in Hp; [|assumption]. now rewrite Hp. }
  destruct (IsEvaluationValid block parameters cost residuals jacobians m') eqn:Hv;
    [|reflexivity].
  apply IsEvaluationValid_true_iff in Hv. destruct Hv as [Hres Hjac].
  destruct Hreq as [Ha | (js & i & Hjs & Hi & Ha)].
  - rewrite (IsArrayValid_unusable _ _ _ _ Ha Hbad) in Hres. discriminate.
  - specialize (Hjac js i Hjs Hi). rewrite well_formed_int_mul in Hjac by assumption.
    rewrite (IsArrayValid_unusable _ _ _ _ Ha Hbad) in Hjac. discriminate.
Qed.

(** Poisoning the buffers of one evaluation does not change the verdict on
    another evaluation whose required cells are none of the poisoned ones. *)
Theorem poisoning_other_buffers_keeps_verdict (block : ResidualBlock)
    (parameters : ptr_array) (cost residuals : ptr)
    (jacobians : option ptr_array)
    (block' : ResidualBlock) (cost' residuals' : ptr)
    (jacobians' : option ptr_array) (m : memory) :
  well_formed block = true -> well_formed block' = true ->
  (forall a, required block residuals jacobians a ->
             ~ poisoned block' cost' residuals' jacobians' a) ->
  IsEvaluationValid block parameters cost residuals jacobians
    (InvalidateEvaluation block' cost' residuals' jacobians' m)
  = IsEvaluationValid block parameters cost residuals jacobians m.
Proof.
  intros Hwf Hwf' Hapart.
  assert (Hkept : forall a, required block residuals jacobians a ->
            InvalidateEvaluation block' cost' residuals' jacobians' m a = m a).
  { intros a Ha. rewrite InvalidateEvaluation_lookup.
    destruct (poisonedb block' cost' residuals' jacobians' a) eqn:Hp; [|reflexivity].
    apply poisonedb_iff in Hp; [|assumption]. now destruct (Hapart a Ha). }
  unfold IsEvaluationValid.
  rewrite (IsArrayValid_same_cells _ _ _ m)
    by (intros a Ha; apply Hkept; now left).
  destruct (IsArrayValid (NumResiduals block) residuals m); simpl; [|reflexivity].
  destruct jacobians as [js|]; [|reflexivity].
  apply forallb_agree. intros i Hi%In_upto.
  apply IsArrayValid_same_cells. rewrite well_formed_int_mul by assumption.
  intros a Ha. apply Hkept. right. now exists js, i.
Qed.

(** Poisoning twice is poisoning once. *)
Theorem InvalidateEvaluation_idempotent (block : ResidualBlock)
    (cost residuals : ptr) (jacobians : option ptr_array) (m : memory)
    (a : addr) :
  InvalidateEvaluation block cost residuals jacobians
    (InvalidateEvaluation block cost residuals jacobians m) a
  = InvalidateEvaluation block cost residuals jacobians m a.
Proof.
  rewrite !InvalidateEvaluation_lookup.
  now destruct (poisonedb block cost residuals jacobians a).
Qed.

(** Nothing of what the output buffers held survives the poisoning: two
    memories that agree outside the poisoned cells are equal after it. *)
Theorem InvalidateEvaluation_erases (block : ResidualBlock)
    (cost residuals : ptr) (jacobians : option ptr_array) (m1 m2 : memory) :
  well_formed block = true ->
  (forall a, ~ poisoned block cost residuals jacobians a -> m1 a = m2 a) ->
  forall a,
    InvalidateEvaluation block cost residuals jacobians m1 a
    = InvalidateEvaluation block cost residuals jacobians m2 a.
Proof.
  intros Hwf Hout a. rewrite !InvalidateEvaluation_lookup.
  destruct (poisonedb block cost residuals jacobians a) eqn:Hp; [reflexivity|].
  apply Hout. intros Hin. apply poisonedb_iff in Hin; [|assumption]. congruence.
Qed.

(** ** More on the commentary *)

(** The three commentaries tell the three kinds of value apart: "OK" is for
    the values the validator accepts, "not finite" for the non-finite ones
    (the sentinel too, should it be non-finite), "not set" for the finite
    values that compare equal to the sentinel. *)
Theorem commentary_classifies (x : double) :
  (UserSuppliedNumberCommentary x = "OK"%string
   <-> IsUserSuppliedValueValid x = true)
  /\ (UserSuppliedNumberCommentary x = "ERROR: Value is not finite"%string
      <-> IsFinite x = false)
  /\ (UserSuppliedNumberCommentary x
      = "ERROR: Value was not set by cost function"%string
      <-> IsFinite x = true /\ double_eq x kImpossibleValue = true).
Proof.
  unfold UserSuppliedNumberCommentary, IsUserSuppliedValueValid.
  destruct (IsFinite x), (double_eq x kImpossibleValue); simpl;
    repeat split; intros; try discriminate; try reflexivity;
    match goal with H : _ /\ _ |- _ => destruct H; discriminate end.
Qed.

(** An invalid verdict on buffers that are all present has a culprit: a cell
    of the residual vector or of a Jacobian block whose commentary is not
    "OK". *)
Theorem invalid_verdict_has_culprit (block : ResidualBlock)
    (parameters : ptr_array) (cost : ptr) (residuals : addr)
    (jacobians : option ptr_array) (m : memory) :
  well_formed block = true ->
  (forall js i, jacobians = Some js -> 0 <= i < NumParameterBlocks block ->
     js i <> NULL) ->
  IsEvaluationValid block parameters cost (Some residuals) jacobians m = false ->
  exists a, required block (Some residuals) jacobians a
            /\ UserSuppliedNumberCommentary (m a) <> "OK"%string.
Proof.
  intros Hwf Hpresent Hv.
  assert (Hcell : forall size q, IsArrayValid size (Some q) m = false ->
            exists a, in_buffer (Some q) size a
                      /\ UserSuppliedNumberCommentary (m a) <> "OK"%string).
  { intros size q (i & Hi%In_upto & Hbad)%forallb_false_exists.
    exists (q + i). split; [exists q; split; [reflexivity | lia]|].
    intros Hok. apply commentary_ok_iff in Hok. congruence. }
  unfold IsEvaluationValid in Hv.
  destruct (IsArrayValid (NumResiduals block) (Some residuals) m) eqn:Hres;
    simpl in Hv.
  - destruct jacobians as [js|]; [|discriminate].
    apply forallb_false_exists in Hv. destruct Hv as (i & Hi%In_upto & Hbad).
    rewrite well_formed_int_mul in Hbad by assumption.
    destruct (js i) as [q|] eqn:Hq; [|now destruct (Hpresent js i eq_refl Hi)].
    destruct (Hcell _ _ Hbad) as (a & Ha & Hc).
    exists a. split; [|exact Hc]. right. exists js, i. now rewrite Hq.
  - destruct (Hcell _ _ Hres) as (a & Ha & Hc).
    exists a. split; [now left | exact Hc].
Qed.

(** ** More on the full dump *)

Lemma fold_left_agree (f g : string -> Z -> string) (l : list Z) :
  (forall i, In i l -> forall result, f result i = g result i) ->
  forall result, fold_left f l result = fold_left g l result.
Proof.
  induction l as [|i l IH]; intros Hfg result; simpl; [reflexivity|].
  rewrite Hfg by now left. apply IH. intros j Hj. apply Hfg. now right.
Qed.

Lemma concat_map_agree (f g : Z -> string) (l : list Z) :
  (forall i, In i l -> f i = g i) -> concat_map f l = concat_map g l.
Proof.
  induction l as [|i l IH]; intros Hfg; simpl; [reflexivity|].
  rewrite Hfg by now left. f_equal. apply IH. intros j Hj. apply Hfg. now right.
Qed.

(** The text of the dump, or the abort when the cost or the residual pointer
    is null. *)
Lemma EvaluationToString_text (block : ResidualBlock) (parameters : Z -> addr)
    (cost residuals : ptr) (jacobians : option ptr_array) (m : memory) :
  well_formed block = true ->
  EvaluationToString block (fun i => Some (parameters i)) cost residuals
    jacobians m
  = match cost, residuals with
    | Some _, Some r => Some (renderFullDump block parameters r jacobians m)
    | _, _ => None
    end.
Proof.
  intros Hwf. destruct cost as [c|], residuals as [r|]; try reflexivity.
  unfold EvaluationToString. cbv zeta. f_equal.
  rewrite (fold_left_appends _ (parameter_block_text block parameters jacobians m))
    by (intros i Hi%In_upto result; now apply block_round).
  rewrite AppendArrayToString_present.
  unfold StringAppendF, renderFullDump.
  change (EmptyString ++ ?text)%string with text.
  now rewrite !string_app_assoc.
Qed.

(** A Jacobian array whose entries are all null is dumped as no Jacobian
    array at all. *)
Theorem dump_of_null_entries (block : ResidualBlock) (parameters : ptr_array)
    (cost residuals : ptr) (jacobians : ptr_array) (m : memory) :
  (forall i, 0 <= i < NumParameterBlocks block -> jacobians i = NULL) ->
  EvaluationToString block parameters cost residuals (Some jacobians) m
  = EvaluationToString block parameters cost residuals None m.
Proof.
  intros Hnull. unfold EvaluationToString.
  destruct cost as [c|], residuals as [r|]; try reflexivity.
  cbv zeta. do 2 f_equal.
  apply fold_left_agree. intros i Hi%In_upto result.
  now rewrite (Hnull i Hi).
Qed.

(** The dump shows the residual vector, the parameter values and the present
    Jacobian blocks and nothing else: the cost pointer, the cost value and
    every other cell of the memory leave the text as it is. *)
Theorem dump_reads_only_what_it_shows (block : ResidualBlock)
    (parameters : Z -> addr) (cost1 cost2 residuals : addr)
    (jacobians : option ptr_array) (m1 m2 : memory) :
  well_formed block = true ->
  same_cells (Some residuals) (NumResiduals block) m1 m2 ->
  (forall i, 0 <= i < NumParameterBlocks block ->
     same_cells (Some (parameters i)) (parameter_block_size block i) m1 m2) ->
  (forall js i, jacobians = Some js -> 0 <= i < NumParameterBlocks block ->
     same_cells (js i) (NumResiduals block * parameter_block_size block i) m1 m2) ->
  EvaluationToString block (fun i => Some (parameters i)) (Some cost1)
    (Some residuals) jacobians m1
  = EvaluationToString block (fun i => Some (parameters i)) (Some cost2)
      (Some residuals) jacobians m2.
Proof.
  intros Hwf Hres Hpar Hjac.
  rewrite !EvaluationToString_text by assumption. f_equal.
  unfold renderFullDump.
  rewrite (concat_map_agree (fun k => shown (m1 (residuals + k)))
                            (fun k => shown (m2 (residuals + k)))).
  2:{ intros k Hk%In_upto. rewrite Hres; [reflexivity|].
      exists residuals. split; [reflexivity | lia]. }
  rewrite (concat_map_agree (parameter_block_text block parameters jacobians m1)
                            (parameter_block_text block parameters jacobians m2));
    [reflexivity|].
  intros i Hi%In_upto. unfold parameter_block_text.
  rewrite (concat_map_agree (parameter_line block parameters jacobians m1 i)
                            (parameter_line block parameters jacobians m2 i));
    [reflexivity|].
  intros j Hj%In_upto. unfold parameter_line.
  rewrite (Hpar i Hi (parameters i + j))
    by (exists (parameters i); split; [reflexivity | lia]).
  rewrite (concat_map_agree (jacobian_cell block jacobians m1 i j)
                            (jacobian_cell block jacobians m2 i j));
    [reflexivity|].
  intros k Hk%In_upto. unfold jacobian_cell.
  destruct jacobians as [js|]; [|reflexivity].
  destruct (js i) as [q|] eqn:Hq; [|reflexivity].
  rewrite (Hjac js i eq_refl Hi); [reflexivity|].
  exists q. split; [exact Hq|].
  destruct (well_formed_size block i Hwf Hi) as (Hn & Hs & _). nia.
Qed.

(** ** More on the error report *)

Lemma map_nth_seq (l : list ParameterBlock) (d : ParameterBlock) (start : nat) :
  map (fun k => nth (k - start) l d) (seq start (List.length l)) = l.
Proof.
  revert start. induction l as [|x l IH]; intros start; simpl; [reflexivity|].
  rewrite Nat.sub_diag. f_equal.
  rewrite <- (IH (S start)) at 2. apply map_ext_in.
  intros k Hk%in_seq. now replace (k - start)%nat with (S (k - S start)) by lia.
Qed.

Lemma sizes_in_order (block : ResidualBlock) :
  map (parameter_block_size block) (upto (NumParameterBlocks block))
  = map Size (parameter_blocks block).
Proof.
  unfold upto, NumParameterBlocks, parameter_block_size.
  rewrite Nat2Z.id, map_map.
  transitivity
    (map Size (map (fun k => nth (k - 0) (parameter_blocks block) {| Size := 0 |})
                   (seq 0 (List.length (parameter_blocks block)))));
    [|now rewrite map_nth_seq].
  rewrite map_map. apply map_ext. intros k. now rewrite Nat2Z.id, Nat.sub_0_r.
Qed.

Lemma concat_map_map (f : Z -> string) (g : Z -> Z) (l : list Z) :
  concat_map (fun i => f (g i)) l = concat_map f (map g l).
Proof. induction l as [|i l IH]; simpl; [reflexivity | now rewrite IH]. Qed.

Lemma report_shape_text (block : ResidualBlock) (result : string) :
  report_shape block result
  = (result ++ "  " ++ format_d (NumParameterBlocks block)
     ++ " parameter blocks; sizes: ("
     ++ concat_map format_d (map Size (parameter_blocks block))
     ++ ")" ++ nl ++ "  " ++ format_d (NumResiduals block) ++ " residuals" ++ nl
     ++ nl)%string.
Proof.
  unfold report_shape. cbv zeta.
  rewrite (fold_left_appends _ (fun i => format_d (parameter_block_size block i)))
    by reflexivity.
  rewrite (concat_map_map format_d), sizes_in_order.
  unfold StringAppendF. now rewrite !string_app_assoc.
Qed.

(** The shape summary prints the sizes one after the other with nothing in
    between: two blocks with as many residuals and as many parameter blocks
    whose sizes give the same run of digits get the same summary. *)
Theorem report_shape_runs_sizes_together (block1 block2 : ResidualBlock)
    (result : string) :
  NumResiduals block1 = NumResiduals block2 ->
  NumParameterBlocks block1 = NumParameterBlocks block2 ->
  concat_map format_d (map Size (parameter_blocks block1))
  = concat_map format_d (map Size (parameter_blocks block2)) ->
  report_shape block1 result = report_shape block2 result.
Proof.
  intros Hn Hp Hdigits. rewrite !report_shape_text. now rewrite Hn, Hp, Hdigits.
Qed.

End Sentinel.

(** ** The statements on concrete evaluations *)

(** Scenario A is valid. *)
Lemma valid_when_written_and_present_scenario_A :
  well_formed block_1x3_2 = true
  /\ evaluation_written d1e302 block_1x3_2 residuals_at jacobians_at memory_A
  /\ IsEvaluationValid d1e302 block_1x3_2 parameters_at cost_at residuals_at
       jacobians_at memory_A = true.
Proof.
  assert (Hw : evaluation_written d1e302 block_1x3_2 residuals_at jacobians_at memory_A).
  { split.
    - now apply IsArrayValid_present.
    - intros js i [= <-] Hi.
      assert (i = 0) as -> by (unfold NumParameterBlocks in Hi; simpl in Hi; lia).
      now apply IsArrayValid_present. }
  split; [reflexivity|]. split; [exact Hw|].
  apply (valid_when_written_and_present d1e302 block_1x3_2 parameters_at cost_at 1
           jacobians_at memory_A); [reflexivity | exact Hw |].
  intros js i [= <-] _ Hnull. discriminate.
Defined.

Lemma invalid_when_cell_unusable_scenario_C :
  well_formed block_1x3_2 = true
  /\ unusable d1e302 (memory_C 2)
  /\ in_buffer residuals_at (NumResiduals block_1x3_2) 2
  /\ IsEvaluationValid d1e302 block_1x3_2 parameters_at cost_at residuals_at
       jacobians_at memory_C = false.
Proof.
  assert (Hbad : unusable d1e302 (memory_C 2)) by (right; right; left; reflexivity).
  assert (Hin : in_buffer residuals_at (NumResiduals block_1x3_2) 2)
    by (exists 1; split; [reflexivity | simpl; lia]).
  split; [reflexivity|]. split; [exact Hbad|]. split; [exact Hin|].
  apply (invalid_when_cell_unusable d1e302 block_1x3_2 parameters_at cost_at
           residuals_at jacobians_at memory_C 2); [reflexivity | exact Hbad | now left].
Defined.

Lemma invalid_when_residuals_null_block_1x3_2 :
  0 < NumResiduals block_1x3_2
  /\ IsEvaluationValid d1e302 block_1x3_2 parameters_at cost_at NULL
       jacobians_at memory_A = false.
Proof.
  split; [reflexivity|].
  apply (invalid_when_residuals_null d1e302 block_1x3_2 parameters_at cost_at
           jacobians_at memory_A).
  reflexivity.
Defined.

Lemma InvalidateEvaluation_overwrites_exactly_block_1x3_2 :
  well_formed block_1x3_2 = true
  /\ (poisoned block_1x3_2 cost_at residuals_at jacobians_at 11 ->
      InvalidateEvaluation d1e302 block_1x3_2 cost_at residuals_at jacobians_at
        memory_A 11 = d1e302)
  /\ (~ poisoned block_1x3_2 cost_at residuals_at jacobians_at 11 ->
      InvalidateEvaluation d1e302 block_1x3_2 cost_at residuals_at jacobians_at
        memory_A 11 = memory_A 11).
Proof.
  split; [reflexivity|].
  apply (InvalidateEvaluation_overwrites_exactly d1e302 block_1x3_2 cost_at
           residuals_at jacobians_at memory_A 11).
  reflexivity.
Defined.

Lemma poisoned_evaluation_is_invalid_block_1x3_2 :
  1 <= NumResiduals block_1x3_2
  /\ IsEvaluationValid d1e302 block_1x3_2 parameters_at cost_at residuals_at
       jacobians_at
       (InvalidateEvaluation d1e302 block_1x3_2 cost_at residuals_at jacobians_at
          memory_A) = false.
Proof.
  split; [simpl; lia|].
  apply (poisoned_evaluation_is_invalid d1e302 block_1x3_2 parameters_at cost_at
           residuals_at jacobians_at memory_A).
  simpl; lia.
Defined.

(** C7 on the code: in scenario B the second residual holds the sentinel, the
    evaluation is invalid and the commentary for that entry is the "not set
    by cost function" one, yet the residual section of the report as written
    is its heading alone: no line gives an index, a value or a commentary. *)
Theorem report_residuals_scenario_B_has_no_entry (result : string) :
  IsEvaluationValid d1e302 block_1x3_2 parameters_at cost_at residuals_at
    jacobians_at memory_B = false
  /\ UserSuppliedNumberCommentary d1e302 (memory_B 2)
     = "ERROR: Value was not set by cost function"%string
  /\ report_residuals d1e302 block_1x3_2 1 memory_B result
     = (result ++ "Problem exists in: User-returned residual values (r[N])"
        ++ nl ++ nl)%string.
Proof.
  split; [reflexivity|]. split; [reflexivity|].
  now rewrite report_residuals_heading_only.
Qed.

(** C8 on the code: the only Jacobian block of [block_1x1_2] holds a NaN at
    [memory_J], so the block fails validation at its own length and the
    evaluation is invalid; the check of the report as written reads the
    residual vector instead and finds every Jacobian block in order, whatever
    its loop bound is taken to be. *)
Theorem jacobians_all_ok_misses_invalid_block (bound : Z) :
  IsArrayValid d1e302
    (NumResiduals block_1x1_2 * parameter_block_size block_1x1_2 0)
    (jacobians_J 0) memory_J = false
  /\ IsEvaluationValid d1e302 block_1x1_2 parameters_at cost_at residuals_at
       (Some jacobians_J) memory_J = false
  /\ jacobians_all_ok d1e302 bound block_1x1_2 1 jacobians_J memory_J = true.
Proof.
  split; [reflexivity|]. split; [reflexivity|].
  apply jacobians_all_ok_of_residuals. intros i _.
  unfold parameter_block_size.
  destruct (Z.to_nat i) as [|[|n]]; reflexivity.
Qed.

Lemma EvaluationToString_layout_scenario_D :
  well_formed block_1x3_2 = true
  /\ EvaluationToString d1e302 (fun _ => "<value> "%string) block_1x3_2
       (fun i => Some 3) (Some 0) (Some 1) jacobians_held_constant memory_B
     = Some (renderFullDump d1e302 (fun _ => "<value> "%string) block_1x3_2
               (fun i => 3) 1 jacobians_held_constant memory_B).
Proof.
  split; [reflexivity|].
  apply (EvaluationToString_layout d1e302 (fun _ => "<value> "%string) block_1x3_2
           (fun i => 3) 0 1 jacobians_held_constant memory_B).
  reflexivity.
Defined.

Lemma verdict_ignores_cost_and_parameters_scenario_A :
  well_formed block_1x3_2 = true
  /\ memory_A 0 <> memory_A' 0
  /\ memory_A 3 <> memory_A' 3
  /\ IsEvaluationValid d1e302 block_1x3_2 parameters_at cost_at residuals_at
       jacobians_at memory_A
     = IsEvaluationValid d1e302 block_1x3_2 (fun _ => Some 4) NULL residuals_at
         jacobians_at memory_A'.
Proof.
  split; [reflexivity|]. split; [discriminate|]. split; [discriminate|].
  apply (verdict_ignores_cost_and_parameters d1e302 block_1x3_2 parameters_at
           (fun _ => Some 4) cost_at NULL residuals_at jacobians_at
           memory_A memory_A').
  - reflexivity.
  - intros a (q & [= <-] & Ha). simpl in Ha.
    assert (Hcases : a = 1 \/ a = 2) by lia.
    destruct Hcases as [-> | ->]; reflexivity.
  - intros js i [= <-] Hi a (q & [= <-] & Ha).
    assert (i = 0) as -> by (unfold NumParameterBlocks in Hi; simpl in Hi; lia).
    simpl in Ha.
    assert (Hcases : a = 6 \/ a = 7 \/ a = 8 \/ a = 9 \/ a = 10 \/ a = 11) by lia.
    destruct Hcases as [-> | [-> | [-> | [-> | [-> | ->]]]]]; reflexivity.
Defined.

(** ** Further evaluations *)

(** Scenarios B and C are invalid, and the commentary tells them apart. *)
Example scenarios_B_and_C :
  IsEvaluationValid d1e302 block_1x3_2 parameters_at cost_at residuals_at
    jacobians_at memory_B = false
  /\ IsEvaluationValid d1e302 block_1x3_2 parameters_at cost_at residuals_at
       jacobians_at memory_C = false
  /\ UserSuppliedNumberCommentary d1e302 (memory_B 2)
     = "ERROR: Value was not set by cost function"%string
  /\ UserSuppliedNumberCommentary d1e302 (memory_C 2)
     = "ERROR: Value is not finite"%string
  /\ UserSuppliedNumberCommentary d1e302 (memory_C 1) = "OK"%string.
Proof. repeat split. Qed.

(** Poisoning scenario A overwrites the cost, the residuals and the Jacobian
    block, and leaves the parameters at 3-5 and the cell after the block. *)
Example poisoning_scenario_A :
  map (InvalidateEvaluation d1e302 block_1x3_2 cost_at residuals_at jacobians_at
         memory_A)
      [0; 1; 2; 3; 4; 5; 6; 7; 8; 9; 10; 11; 12]
  = [d1e302; d1e302; d1e302; d1_0; d2_0; d0_5;
     d1e302; d1e302; d1e302; d1e302; d1e302; d1e302; S754_zero false].
Proof. reflexivity. Qed.

(** With a held-constant block every Jacobian cell of a parameter line is the
    marker, and an unwritten residual is shown as such. *)
Example dump_lines_scenario_D :
  parameter_line d1e302 (fun _ => "<value> "%string) block_1x3_2 (fun _ => 3)
    jacobians_held_constant memory_B 0 0
  = ("<value> | Not Computed  Not Computed  " ++ nl)%string
  /\ concat_map (fun k => shown d1e302 (fun _ => "<value> "%string) (memory_B (1 + k)))
       (upto (NumResiduals block_1x3_2))
     = "<value> Uninitialized "%string.
Proof. split; reflexivity. Qed.

(** ** The further properties on concrete evaluations *)

Lemma IsEvaluationValid_exact_when_present_scenario_A :
  well_formed block_1x3_2 = true
  /\ (forall js i, jacobians_at = Some js ->
        0 <= i < NumParameterBlocks block_1x3_2 -> js i <> NULL)
  /\ (IsEvaluationValid d1e302 block_1x3_2 parameters_at cost_at residuals_at
        jacobians_at memory_A = true
      <-> evaluation_written d1e302 block_1x3_2 residuals_at jacobians_at memory_A).
Proof.
  assert (Hpresent : forall js i, jacobians_at = Some js ->
            0 <= i < NumParameterBlocks block_1x3_2 -> js i <> NULL)
    by (intros js i [= <-] _; discriminate).
  split; [reflexivity|]. split; [exact Hpresent|].
  apply (IsEvaluationValid_exact_when_present d1e302 block_1x3_2 parameters_at
           cost_at 1 jacobians_at memory_A); [reflexivity | exact Hpresent].
Defined.

Lemma no_residuals_always_valid_block_1x3_0 :
  NumResiduals block_1x3_0 = 0
  /\ IsEvaluationValid d1e302 block_1x3_0 (fun _ => NULL) NULL NULL
       jacobians_held_constant memory_C = true.
Proof.
  split; [reflexivity|].
  apply (no_residuals_always_valid d1e302 block_1x3_0 (fun _ => NULL) NULL NULL
           jacobians_held_constant memory_C).
  reflexivity.
Defined.

Lemma unwritten_cell_is_detected_scenario_B :
  well_formed block_1x3_2 = true
  /\ required block_1x3_2 residuals_at jacobians_at 2
  /\ memory_B 2
     = InvalidateEvaluation d1e302 block_1x3_2 cost_at residuals_at jacobians_at
         memory_A 2
  /\ IsEvaluationValid d1e302 block_1x3_2 parameters_at cost_at residuals_at
       jacobians_at memory_B = false.
Proof.
  assert (Hreq : required block_1x3_2 residuals_at jacobians_at 2)
    by (left; exists 1; split; [reflexivity | simpl; lia]).
  split; [reflexivity|]. split; [exact Hreq|]. split; [reflexivity|].
  apply (unwritten_cell_is_detected d1e302 block_1x3_2 parameters_at cost_at
           residuals_at jacobians_at memory_A memory_B 2);
    [reflexivity | exact Hreq | reflexivity].
Defined.

Lemma poisoning_other_buffers_keeps_verdict_apart :
  well_formed block_1x3_2 = true
  /\ well_formed block_1x1_2 = true
  /\ IsEvaluationValid d1e302 block_1x3_2 parameters_at cost_at residuals_at
       jacobians_at
       (InvalidateEvaluation d1e302 block_1x1_2 (Some 20) (Some 21)
          (Some (fun _ => Some 24)) memory_A)
     = IsEvaluationValid d1e302 block_1x3_2 parameters_at cost_at residuals_at
         jacobians_at memory_A.
Proof.
  split; [reflexivity|]. split; [reflexivity|].
  apply (poisoning_other_buffers_keeps_verdict d1e302 block_1x3_2 parameters_at
           cost_at residuals_at jacobians_at block_1x1_2 (Some 20) (Some 21)
           (Some (fun _ => Some 24)) memory_A); [reflexivity | reflexivity |].
  intros a Hreq Hpoisoned.
  assert (Ha : 1 <= a < 12).
  { destruct Hreq as [(q & [= <-] & Ha) | (js & i & [= <-] & Hi & q & [= <-] & Ha)].
    - simpl in Ha. lia.
    - assert (i = 0) as -> by (unfold NumParameterBlocks in Hi; simpl in Hi; lia).
      simpl in Ha. lia. }
  destruct Hpoisoned as [(q & [= <-] & Hb) | [(q & [= <-] & Hb)
                        | (js & i & [= <-] & Hi & q & [= <-] & Hb)]].
  - lia.
  - simpl in Hb. lia.
  - assert (i = 0) as -> by (unfold NumParameterBlocks in Hi; simpl in Hi; lia).
    simpl in Hb. lia.
Defined.

Lemma InvalidateEvaluation_erases_scenarios_A_and_B :
  well_formed block_1x3_2 = true
  /\ memory_A 2 <> memory_B 2
  /\ forall a,
       InvalidateEvaluation d1e302 block_1x3_2 cost_at residuals_at jacobians_at
         memory_A a
       = InvalidateEvaluation d1e302 block_1x3_2 cost_at residuals_at jacobians_at
           memory_B a.
Proof.
  split; [reflexivity|]. split; [discriminate|].
  apply (InvalidateEvaluation_erases d1e302 block_1x3_2 cost_at residuals_at
           jacobians_at memory_A memory_B); [reflexivity|].
  intros a Hout.
  unfold memory_A, memory_B, memory_of_evaluation, memory_of. simpl.
  destruct (Z.to_nat a) as [|[|[|n]]] eqn:Hn; try reflexivity.
  exfalso. apply Hout. right; left. exists 1. split; [reflexivity | simpl; lia].
Defined.

Lemma invalid_verdict_has_culprit_scenario_C :
  well_formed block_1x3_2 = true
  /\ IsEvaluationValid d1e302 block_1x3_2 parameters_at cost_at residuals_at
       jacobians_at memory_C = false
  /\ exists a, required block_1x3_2 residuals_at jacobians_at a
               /\ UserSuppliedNumberCommentary d1e302 (memory_C a) <> "OK"%string.
Proof.
  split; [reflexivity|]. split; [reflexivity|].
  apply (invalid_verdict_has_culprit d1e302 block_1x3_2 parameters_at cost_at 1
           jacobians_at memory_C); [reflexivity | | reflexivity].
  intros js i [= <-] _. discriminate.
Defined.

Lemma dump_of_null_entries_scenario_D :
  (forall i, 0 <= i < NumParameterBlocks block_1x3_2 -> (fun _ : Z => NULL) i = NULL)
  /\ EvaluationToString d1e302 (fun _ => "<value> "%string) block_1x3_2
       parameters_at cost_at residuals_at jacobians_held_constant memory_A
     = EvaluationToString d1e302 (fun _ => "<value> "%string) block_1x3_2
         parameters_at cost_at residuals_at None memory_A.
Proof.
  split; [reflexivity|].
  apply (dump_of_null_entries d1e302 (fun _ => "<value> "%string) block_1x3_2
           parameters_at cost_at residuals_at (fun _ => NULL) memory_A).
  reflexivity.
Defined.

Lemma dump_reads_only_what_it_shows_scenario_A :
  well_formed block_1x3_2 = true
  /\ memory_A 0 <> memory_A_cost 0
  /\ EvaluationToString d1e302 (fun _ => "<value> "%string) block_1x3_2
       (fun _ => Some 3) (Some 0) (Some 1) jacobians_at memory_A
     = EvaluationToString d1e302 (fun _ => "<value> "%string) block_1x3_2
         (fun _ => Some 3) (Some 12) (Some 1) jacobians_at memory_A_cost.
Proof.
  split; [reflexivity|]. split; [discriminate|].
  apply (dump_reads_only_what_it_shows d1e302 (fun _ => "<value> "%string)
           block_1x3_2 (fun _ => 3) 0 12 1 jacobians_at memory_A memory_A_cost).
  - reflexivity.
  - intros a (q & [= <-] & Ha). simpl in Ha.
    assert (Hcases : a = 1 \/ a = 2) by lia.
    destruct Hcases as [-> | ->]; reflexivity.
  - intros i Hi a (q & [= <-] & Ha).
    assert (i = 0) as -> by (unfold NumParameterBlocks in Hi; simpl in Hi; lia).
    simpl in Ha.
    assert (Hcases : a = 3 \/ a = 4 \/ a = 5) by lia.
    destruct Hcases as [-> | [-> | ->]]; reflexivity.
  - intros js i [= <-] Hi a (q & [= <-] & Ha).
    assert (i = 0) as -> by (unfold NumParameterBlocks in Hi; simpl in Hi; lia).
    simpl in Ha.
    assert (Hcases : a = 6 \/ a = 7 \/ a = 8 \/ a = 9 \/ a = 10 \/ a = 11) by lia.
    destruct Hcases as [-> | [-> | [-> | [-> | [-> | ->]]]]]; reflexivity.
Defined.

Lemma report_shape_runs_sizes_together_1_23_and_12_3 :
  NumResiduals block_1_23 = NumResiduals block_12_3
  /\ NumParameterBlocks block_1_23 = NumParameterBlocks block_12_3
  /\ parameter_blocks block_1_23 <> parameter_blocks block_12_3
  /\ concat_map format_d (map Size (parameter_blocks block_1_23))
     = concat_map format_d (map Size (parameter_blocks block_12_3))
  /\ report_shape block_1_23 EmptyString = report_shape block_12_3 EmptyString.
Proof.
  split; [reflexivity|]. split; [reflexivity|]. split; [discriminate|].
  split; [reflexivity|].
  apply (report_shape_runs_sizes_together block_1_23 block_12_3 EmptyString);
    reflexivity.
Defined.
